(** * Verification of the Instant-NGP radiance field (model/ngp.py)

    A shallow embedding of [contract_to_unisphere] and of the methods of
    [NGPradianceField] ([density_bias], [query_density],
    [_compute_embedding], [_finite_difference_normals_approximator],
    [forward]), followed by the properties of the field evaluation.

    Modelling conventions.
    - A float tensor entry is a real number ([R]): arithmetic is exact and
      every value is finite.  The one place where the code handles
      non-finite values explicitly ([safe_normalize(...).nan_to_num_()])
      is modelled a second time over values extended with the IEEE
      specials, in module [Ieee], and related to the real model.
      Module [Overflow] adds the overflow of an operation to an
      infinity, for the masking product of [query_density] and for
      [safe_normalize]; module [F32] is [contract_to_unisphere] in
      binary32, with its rounding.  The properties stated over [R] are
      those that rounding and overflow leave standing.
    - The last tensor axis of positions, directions and normals has
      width 3 and is a [vec3]; the leading batch axis is a [list].  An
      [N x 1] tensor is a [list R].
    - The tiny-cuda-nn encoders and networks act row by row; they are
      fields of the record [NGPradianceField], of function type.
    - Python exceptions are the [Raise] results of the monad [res]. *)

From Stdlib Require Import Reals Lra Psatz List String Bool.
From Stdlib Require Import ZArith SpecFloat.
Import ListNotations.

Open Scope R_scope.

(** ** Comparisons on tensor entries *)

(** [a > b] as torch computes it: a boolean. *)
Definition Rgtb (a b : R) : bool := if Rlt_dec b a then true else false.

(** [a < b]. *)
Definition Rltb (a b : R) : bool := if Rlt_dec a b then true else false.

(** Python truthiness of a number: everything but zero. *)
Definition truthy (a : R) : bool := if Req_dec_T a 0 then false else true.

(** A boolean tensor entry promoted to float in a product. *)
Definition of_bool (b : bool) : R := if b then 1 else 0.

(** [torch.clamp(x, min=lo)]. *)
Definition clamp_min (x lo : R) : R := Rmax x lo.

(** [torch.clamp(x, lo, hi)], which is [min(max(x, lo), hi)]. *)
Definition clamp (x lo hi : R) : R := Rmin (Rmax x lo) hi.

(** ** Rows of width 3 *)

Record vec3 : Type := V3 { vx : R; vy : R; vz : R }.

Definition vmap (f : R -> R) (a : vec3) : vec3 :=
  V3 (f (vx a)) (f (vy a)) (f (vz a)).

Definition vmap2 (f : R -> R -> R) (a b : vec3) : vec3 :=
  V3 (f (vx a) (vx b)) (f (vy a) (vy b)) (f (vz a) (vz b)).

Definition vadd : vec3 -> vec3 -> vec3 := vmap2 Rplus.
Definition vsub : vec3 -> vec3 -> vec3 := vmap2 Rminus.
Definition vmul : vec3 -> vec3 -> vec3 := vmap2 Rmult.
Definition vdiv : vec3 -> vec3 -> vec3 := vmap2 Rdiv.

(** A row times, or divided by, a scalar that broadcasts over it. *)
Definition vscale (k : R) (a : vec3) : vec3 := vmap (fun t => k * t) a.
Definition vdivs (a : vec3) (k : R) : vec3 := vmap (fun t => t / k) a.

(** [.sum(-1)] of a row. *)
Definition vsum (a : vec3) : R := vx a + vy a + vz a.

(** [a @ b] for two rows. *)
Definition dot (a b : vec3) : R := vsum (vmul a b).

(** [(x**2).sum(-1)]. *)
Definition sumsq (a : vec3) : R := vsum (vmap (fun t => t ^ 2) a).

(** [x.norm(dim=-1)]. *)
Definition norm (a : vec3) : R := sqrt (sumsq a).

(** [.all(dim=-1)] of a boolean row obtained entry by entry. *)
Definition vall (p : R -> bool) (a : vec3) : bool :=
  p (vx a) && p (vy a) && p (vz a).

(** [x.clamp(lo, hi)] on a row. *)
Definition vclamp (a : vec3) (lo hi : R) : vec3 :=
  vmap (fun t => clamp t lo hi) a.

(** ** Scene bounds *)

(** [torch.split(aabb, 3, dim=-1)] of the 6 scalars. *)
Record box : Type := Box { aabb_min : vec3; aabb_max : vec3 }.

(** The identity bounds [[-1,-1,-1,1,1,1]]. *)
Definition unit_box : box := Box (V3 (-1) (-1) (-1)) (V3 1 1 1).

(** ** contract_to_unisphere *)

(** [x = (x - aabb_min) / (aabb_max - aabb_min); x = x * 2 - 1]. *)
Definition rescale (x : vec3) (aabb : box) : vec3 :=
  let x := vdiv (vsub x (aabb_min aabb)) (vsub (aabb_max aabb) (aabb_min aabb)) in
  vmap (fun t => t * 2 - 1) x.

(** The right-hand side of [x[mask] = ...]. *)
Definition contraction (mag : R) (x : vec3) : vec3 :=
  vscale (2 - 1 / mag) (vdivs x mag).

(** The derivative expression, for one entry [t] of the row. *)
Definition contraction_dev (mag t : R) : R :=
  (2 * mag - 1) / mag ^ 2
  + 2 * t ^ 2 * (1 / mag ^ 3 - (2 * mag - 1) / mag ^ 4).

Definition contract_to_unisphere
    (x : vec3) (aabb : box) (eps : R) (derivative : bool) : vec3 :=
  let x := rescale x aabb in
  let mag := norm x in
  let mask := Rgtb mag 1 in
  if derivative then
    let dev := vmap (contraction_dev mag) x in
    let dev := if mask then dev else V3 1 1 1 in
    vmap (fun t => clamp_min t eps) dev
  else
    let x := if mask then contraction mag x else x in
    vmap (fun t => t / 4 + 0.5) x.

(** The default [eps] of [contract_to_unisphere]. *)
Definition default_eps : R := 1e-6.

(** ** Exceptions *)

Inductive py_error : Type :=
| TypeError | AttributeError | IndexError | ValueError | RuntimeError
| NotImplementedError.

Inductive res (A : Type) : Type :=
| Ok (a : A)
| Raise (e : py_error).

Arguments Ok {A} a.
Arguments Raise {A} e.

Definition bind {A B : Type} (c : res A) (k : A -> res B) : res B :=
  match c with
  | Ok a => k a
  | Raise e => Raise e
  end.

Notation "x <- c ;; k" := (bind c (fun x => k))
  (at level 61, c at next level, right associativity).

(** ** The field *)

(** The attributes of an [NGPradianceField] that evaluation reads.  The
    number of dimensions is 3.  [mlp_normal] and [direction_encoding] are
    consulted only under [use_predict_normal] and [use_viewdirs]. *)
Record NGPradianceField : Type := {
  aabb : box;
  use_viewdirs : bool;
  density_activation : R -> R;
  unbounded : bool;
  use_predict_normal : bool;
  density_bias_scale : R;
  offset_scale : R;
  direction_encoding : vec3 -> list R;
  mlp_encoder : vec3 -> list R;
  mlp_sigma : list R -> R;
  mlp_rgb : list R -> vec3;
  mlp_normal : list R -> vec3
}.

(** [F.softplus] with its default [beta = 1] and [threshold = 20]: the
    function is linear above the threshold. *)
Definition softplus (x : R) : R :=
  if Rgtb x 20 then x else ln (1 + exp x).

(** The default [density_activation], [lambda x: F.softplus(x - 1)]. *)
Definition default_density_activation (x : R) : R := softplus (x - 1).

(** The defaults of [density_bias]'s keyword arguments. *)
Definition default_density_bias_scale : R := 10.
Definition default_offset_scale : R := 0.5.

(** [density_bias], for one row of [x]. *)
Definition density_bias
    (self : NGPradianceField) (x : vec3) (density_bias_scale offset_scale : R) : R :=
  let tau := density_bias_scale * (1 - sqrt (sumsq x) / offset_scale) in
  tau.

(** The position handed to the encoder: the two branches on
    [self.unbounded] in [query_density]. *)
Definition mapped (self : NGPradianceField) (x : vec3) : vec3 :=
  if unbounded self then
    contract_to_unisphere x (aabb self) default_eps false
  else
    vdiv (vsub x (aabb_min (aabb self)))
         (vsub (aabb_max (aabb self)) (aabb_min (aabb self))).

(** [((x > 0.0) & (x < 1.0)).all(dim=-1)]. *)
Definition selector (x : vec3) : bool :=
  vall (fun t => Rgtb t 0 && Rltb t 1) x.

(** One row of [query_density]: the density and the encoder's output.
    The bias is computed first, by [self.density_bias(x)] with no keyword
    argument, on the position as it was passed in. *)
Definition query_density_row (self : NGPradianceField) (x : vec3) : R * list R :=
  let density_bias :=
    density_bias self x default_density_bias_scale default_offset_scale in
  let x := mapped self x in
  let selector := selector x in
  let x := mlp_encoder self x in
  let h := mlp_sigma self x in
  let density_before_activation := h + density_bias in
  let density :=
    density_activation self density_before_activation * of_bool selector in
  (density, x).

(** The local [density_before_activation] of [query_density], for one
    row. *)
Definition density_before_activation (self : NGPradianceField) (x : vec3) : R :=
  mlp_sigma self (mlp_encoder self (mapped self x))
  + density_bias self x default_density_bias_scale default_offset_scale.

(** What [query_density] returns: the density, or the pair. *)
Inductive qd_out : Type :=
| QDensity (density : list R)
| QDensityFeat (density : list R) (x : list (list R)).

Definition query_density
    (self : NGPradianceField) (x : list vec3) (return_feat : bool) : qd_out :=
  let rows := map (query_density_row self) x in
  if return_feat then QDensityFeat (map fst rows) (map snd rows)
  else QDensity (map fst rows).

(** The density tensor of either result. *)
Definition density_of (o : qd_out) : list R :=
  match o with
  | QDensity density => density
  | QDensityFeat density _ => density
  end.

(** ** _compute_embedding and the heads *)

(** [torch.cat([d, embedding], dim=-1)]: the rows are joined pairwise and
    the two tensors must have as many rows. *)
Fixpoint cat_rows (d e : list (list R)) : res (list (list R)) :=
  match d, e with
  | [], [] => Ok []
  | r :: d, s :: e => t <- cat_rows d e ;; Ok ((r ++ s) :: t)
  | _, _ => Raise RuntimeError
  end.

(** [dir] is [None] when [forward] is called without directions, and
    [None + 1.0] raises. *)
Definition _compute_embedding
    (self : NGPradianceField) (dir : option (list vec3))
    (embedding : list (list R)) : res (list (list R)) :=
  if use_viewdirs self then
    match dir with
    | None => Raise TypeError
    | Some dir =>
        let dir := map (vmap (fun t => (t + 1.0) / 2.0)) dir in
        let d := map (direction_encoding self) dir in
        cat_rows d embedding
    end
  else Ok embedding.

Definition _query_rgb (self : NGPradianceField) (embedding : list (list R))
  : list vec3 := map (mlp_rgb self) embedding.

Definition _query_normal (self : NGPradianceField) (embedding : list (list R))
  : list vec3 := map (mlp_normal self) embedding.

(** ** _finite_difference_normals_approximator *)

(** The result of [self.query_density(p, bound)[0]].  The second
    positional argument of [query_density] is [return_feat], so the pair
    is returned whenever [bound] is truthy and [[0]] is then its density,
    an [N x 1] column; with a falsy [bound] the density alone is returned
    and [[0]] is its first row, of shape [[1]]. *)
Inductive item0 : Type :=
| Column (d : list R)
| Entry (d : R).

Definition getitem0 (o : qd_out) : res item0 :=
  match o with
  | QDensityFeat density _ => Ok (Column density)
  | QDensity (d :: _) => Ok (Entry d)
  | QDensity [] => Raise IndexError
  end.

(** Pairwise operation on two columns, with torch's broadcasting of a
    column of one row. *)
Fixpoint zip_with (f : R -> R -> R) (a b : list R) : list R :=
  match a, b with
  | s :: a, t :: b => f s t :: zip_with f a b
  | _, _ => []
  end.

Definition bcast2 (f : R -> R -> R) (a b : list R) : res (list R) :=
  match a, b with
  | [s], _ => Ok (map (f s) b)
  | _, [t] => Ok (map (fun s => f s t) a)
  | _, _ =>
      if Nat.eqb (List.length a) (List.length b) then Ok (zip_with f a b)
      else Raise RuntimeError
  end.

(** [0.5 * (pos - neg) / epsilon]. *)
Definition central_difference (pos neg epsilon : R) : R :=
  0.5 * (pos - neg) / epsilon.

Definition central_differences (pos neg : item0) (epsilon : R) : res item0 :=
  match pos, neg with
  | Column p, Column n =>
      d <- bcast2 (fun s t => central_difference s t epsilon) p n ;;
      Ok (Column d)
  | Column p, Entry n =>
      Ok (Column (map (fun s => central_difference s n epsilon) p))
  | Entry p, Column n =>
      Ok (Column (map (fun t => central_difference p t epsilon) n))
  | Entry p, Entry n => Ok (Entry (central_difference p n epsilon))
  end.

(** A tensor of normals: [N x 3], or a single row of shape [[3]]. *)
Inductive normals : Type :=
| NBatch (n : list vec3)
| NSingle (n : vec3).

Fixpoint zip3 (a b c : list R) : res (list vec3) :=
  match a, b, c with
  | [], [], [] => Ok []
  | s :: a, t :: b, u :: c => r <- zip3 a b c ;; Ok (V3 s t u :: r)
  | _, _, _ => Raise RuntimeError
  end.

(** [torch.cat([dx, dy, dz], dim=-1)]. *)
Definition cat3 (dx dy dz : item0) : res normals :=
  match dx, dy, dz with
  | Column a, Column b, Column c => n <- zip3 a b c ;; Ok (NBatch n)
  | Entry a, Entry b, Entry c => Ok (NSingle (V3 a b c))
  | _, _, _ => Raise RuntimeError
  end.

(** The defaults of [bound] and [epsilon]. *)
Definition default_bound : R := 2.
Definition default_epsilon : R := 1e-2.

Definition _finite_difference_normals_approximator
    (self : NGPradianceField) (positions : list vec3) (bound epsilon : R)
  : res normals :=
  let pos_x := map (fun p => vadd p (V3 epsilon 0.00 0.00)) positions in
  dist_dx_pos <- getitem0 (query_density self
      (map (fun p => vclamp p (- bound) bound) pos_x) (truthy bound)) ;;
  let pos_y := map (fun p => vadd p (V3 0.00 epsilon 0.00)) positions in
  dist_dy_pos <- getitem0 (query_density self
      (map (fun p => vclamp p (- bound) bound) pos_y) (truthy bound)) ;;
  let pos_z := map (fun p => vadd p (V3 0.00 0.00 epsilon)) positions in
  dist_dz_pos <- getitem0 (query_density self
      (map (fun p => vclamp p (- bound) bound) pos_z) (truthy bound)) ;;
  let neg_x := map (fun p => vadd p (V3 (- epsilon) 0.00 0.00)) positions in
  dist_dx_neg <- getitem0 (query_density self
      (map (fun p => vclamp p (- bound) bound) neg_x) (truthy bound)) ;;
  let neg_y := map (fun p => vadd p (V3 0.00 (- epsilon) 0.00)) positions in
  dist_dy_neg <- getitem0 (query_density self
      (map (fun p => vclamp p (- bound) bound) neg_y) (truthy bound)) ;;
  let neg_z := map (fun p => vadd p (V3 0.00 0.00 (- epsilon))) positions in
  dist_dz_neg <- getitem0 (query_density self
      (map (fun p => vclamp p (- bound) bound) neg_z) (truthy bound)) ;;
  dx <- central_differences dist_dx_pos dist_dx_neg epsilon ;;
  dy <- central_differences dist_dy_pos dist_dy_neg epsilon ;;
  dz <- central_differences dist_dz_pos dist_dz_neg epsilon ;;
  cat3 dx dy dz.

(** ** forward *)

(** The lambda [safe_normalize] of [forward], for one row:
    [x / sqrt(clamp(sum(x * x, -1, keepdim=True), min=1e-20))]. *)
Definition safe_normalize (x : vec3) : vec3 :=
  vdivs x (sqrt (clamp_min (vsum (vmul x x)) 1e-20)).

(** [nan_to_num_] on an entry of the real model, where every entry is
    finite; [Ieee.nan_to_num] is the function on all values. *)
Definition nan_to_num (x : R) : R := x.

Definition nmap (f : vec3 -> vec3) (n : normals) : normals :=
  match n with
  | NBatch n => NBatch (map f n)
  | NSingle n => NSingle (f n)
  end.

(** [ambient_ratio + (1 - ambient_ratio)
      * (normal @ light_direction / (light_direction**2).sum() ** (1 / 2)).clamp(min=0)]
    for one row of [normal]. *)
Definition lambertian_term (ambient_ratio : R) (normal light_direction : vec3) : R :=
  ambient_ratio
  + (1 - ambient_ratio)
    * clamp_min (dot normal light_direction / sqrt (sumsq light_direction)) 0.

(** The tensor [lambertian]: [.unsqueeze(-1)] makes a column of a batch
    and a tensor of shape [[1]] of a single row. *)
Definition lambertian_of (ambient_ratio : R) (normal : normals) (light_direction : vec3)
  : item0 :=
  match normal with
  | NBatch n => Column (map (fun r => lambertian_term ambient_ratio r light_direction) n)
  | NSingle r => Entry (lambertian_term ambient_ratio r light_direction)
  end.

(** [lambertian.repeat(1, 3)]. *)
Definition repeat_1_3 (lambertian : item0) : list vec3 :=
  match lambertian with
  | Column l => map (fun t => V3 t t t) l
  | Entry t => [V3 t t t]
  end.

Fixpoint zip_rows (rgb : list vec3) (l : list R) : list vec3 :=
  match rgb, l with
  | c :: rgb, t :: l => vmap (fun s => s * t) c :: zip_rows rgb l
  | _, _ => []
  end.

(** [rgb * lambertian], with torch's broadcasting. *)
Definition mul_rgb (rgb : list vec3) (lambertian : item0) : res (list vec3) :=
  match lambertian with
  | Entry t => Ok (map (vmap (fun s => s * t)) rgb)
  | Column l =>
      match rgb, l with
      | [c], _ => Ok (map (fun t => vmap (fun s => s * t) c) l)
      | _, [t] => Ok (map (vmap (fun s => s * t)) rgb)
      | _, _ =>
          if Nat.eqb (List.length rgb) (List.length l) then Ok (zip_rows rgb l)
          else Raise RuntimeError
      end
  end.

(** The default [ambient_ratio]. *)
Definition default_ambient_ratio : R := 0.1.

(** [directions] and [light_direction] default to [None].  In the last
    branch on [shading] the exception is built and dropped: there is no
    [raise]. *)
Definition forward
    (self : NGPradianceField) (positions : list vec3)
    (directions : option (list vec3)) (shading : string)
    (light_direction : option vec3) (ambient_ratio : R)
  : res (list vec3 * list R * option normals) :=
  match query_density self positions true with
  | QDensity _ => Raise ValueError
  | QDensityFeat density embedding =>
      embedding <- _compute_embedding self directions embedding ;;
      let rgb := _query_rgb self embedding in
      out <-
        (if (shading =? "albedo")%string then
           let normal := None in
           Ok (rgb, normal)
         else
           normal <-
             (if use_predict_normal self then
                Ok (NBatch (_query_normal self embedding))
              else
                _finite_difference_normals_approximator
                  self positions default_bound default_epsilon) ;;
           let normal := nmap (fun x => vmap nan_to_num (safe_normalize x)) normal in
           light_direction <-
             match light_direction with
             | None => Raise AttributeError
             | Some l => Ok l
             end ;;
           let lambertian := lambertian_of ambient_ratio normal light_direction in
           rgb <-
             (if (shading =? "textureless")%string then
                Ok (repeat_1_3 lambertian)
              else if (shading =? "lambertian")%string then
                mul_rgb rgb lambertian
              else
                let _ := NotImplementedError in
                Ok rgb) ;;
           Ok (rgb, Some normal)) ;;
      Ok (fst out, density, snd out)
  end.

(** ** Non-finite values *)

(** Tensor entries with the IEEE special values.  Finite arithmetic stays
    exact (no rounding, no overflow, one zero); the specials propagate as
    IEEE 754 and torch prescribe. *)
Module Ieee.

Inductive value : Type :=
| Fin (r : R)
| PInf
| NInf
| NaN.

Definition is_finite (v : value) : bool :=
  match v with Fin _ => true | _ => false end.

Definition is_nan (v : value) : bool :=
  match v with NaN => true | _ => false end.

Definition inf_of_sign (positive : bool) : value :=
  if positive then PInf else NInf.

(** The sign of a finite nonzero factor, applied to an infinity. *)
Definition scale_inf (x : R) (positive : bool) : value :=
  if Req_dec_T x 0 then NaN
  else inf_of_sign (if Rgtb x 0 then positive else negb positive).

Definition mul (a b : value) : value :=
  match a, b with
  | NaN, _ | _, NaN => NaN
  | Fin x, Fin y => Fin (x * y)
  | Fin x, PInf | PInf, Fin x => scale_inf x true
  | Fin x, NInf | NInf, Fin x => scale_inf x false
  | PInf, PInf | NInf, NInf => PInf
  | PInf, NInf | NInf, PInf => NInf
  end.

Definition add (a b : value) : value :=
  match a, b with
  | NaN, _ | _, NaN => NaN
  | Fin x, Fin y => Fin (x + y)
  | PInf, NInf | NInf, PInf => NaN
  | PInf, _ | _, PInf => PInf
  | NInf, _ | _, NInf => NInf
  end.

Definition div (a b : value) : value :=
  match a, b with
  | NaN, _ | _, NaN => NaN
  | Fin x, Fin y =>
      if Req_dec_T y 0 then scale_inf x true else Fin (x / y)
  | Fin _, PInf | Fin _, NInf => Fin 0
  | PInf, Fin y => inf_of_sign (negb (Rltb y 0))
  | NInf, Fin y => inf_of_sign (Rltb y 0)
  | _, _ => NaN
  end.

Definition sqrt (a : value) : value :=
  match a with
  | Fin x => if Rltb x 0 then NaN else Fin (R_sqrt.sqrt x)
  | PInf => PInf
  | NInf | NaN => NaN
  end.

(** [torch.clamp(a, min=lo)]; a NaN stays a NaN. *)
Definition clamp_min (a : value) (lo : R) : value :=
  match a with
  | Fin x => Fin (Rmax x lo)
  | PInf => PInf
  | NInf => Fin lo
  | NaN => NaN
  end.

(** [nan_to_num_] with its default arguments: NaN becomes zero and the
    infinities the extreme finite values of the dtype. *)
Definition nan_to_num (float_max : R) (a : value) : value :=
  match a with
  | Fin x => Fin x
  | PInf => Fin float_max
  | NInf => Fin (- float_max)
  | NaN => Fin 0
  end.

(** A row of width 3. *)
Record row : Type := Row { r0 : value; r1 : value; r2 : value }.

Definition of_vec3 (a : vec3) : row := Row (Fin (vx a)) (Fin (vy a)) (Fin (vz a)).

Definition entries (a : row) : list value := [r0 a; r1 a; r2 a].

Definition rmap (f : value -> value) (a : row) : row :=
  Row (f (r0 a)) (f (r1 a)) (f (r2 a)).

(** [torch.clamp(torch.sum(x * x, -1, keepdim=True), min=1e-20)]. *)
Definition clamped_sumsq (x : row) : value :=
  clamp_min (add (add (mul (r0 x) (r0 x)) (mul (r1 x) (r1 x)))
                 (mul (r2 x) (r2 x))) 1e-20.

(** The divisor of [safe_normalize]. *)
Definition divisor (x : row) : value := sqrt (clamped_sumsq x).

Definition safe_normalize (x : row) : row :=
  rmap (fun t => div t (divisor x)) x.

(** [safe_normalize(normal).nan_to_num_()]. *)
Definition normalized (float_max : R) (x : row) : row :=
  rmap (nan_to_num float_max) (safe_normalize x).

End Ieee.

(** ** The central-difference formula

    The gradient estimate as the documentation of the estimator words it,
    over an arbitrary density function [D]: each axis is perturbed by
    plus and minus [epsilon], the perturbed points are clamped to
    [[-bound, bound]], and the component along an axis is
    [0.5 * (D(p + eps * axis) - D(p - eps * axis)) / epsilon]. *)
Definition axis_x : vec3 := V3 1 0 0.
Definition axis_y : vec3 := V3 0 1 0.
Definition axis_z : vec3 := V3 0 0 1.

Definition central_gradient (D : vec3 -> R) (bound epsilon : R) (p : vec3) : vec3 :=
  let at_ (q : vec3) := D (vclamp q (- bound) bound) in
  V3 (0.5 * (at_ (vadd p (vscale epsilon axis_x))
             - at_ (vsub p (vscale epsilon axis_x))) / epsilon)
     (0.5 * (at_ (vadd p (vscale epsilon axis_y))
             - at_ (vsub p (vscale epsilon axis_y))) / epsilon)
     (0.5 * (at_ (vadd p (vscale epsilon axis_z))
             - at_ (vsub p (vscale epsilon axis_z))) / epsilon).

(** The density of [query_density] at one position. *)
Definition density_at (self : NGPradianceField) (x : vec3) : R :=
  fst (query_density_row self x).

(** The mapped position lies strictly inside the unit cube. *)
Definition inside_unit_cube (m : vec3) : Prop :=
  0 < vx m < 1 /\ 0 < vy m < 1 /\ 0 < vz m < 1.

(** The encoder's output for a batch: the second component of the pair
    that [query_density] returns. *)
Definition features (self : NGPradianceField) (positions : list vec3)
  : list (list R) :=
  map (fun x => snd (query_density_row self x)) positions.

(** The normals of [forward] before normalisation, when the estimator
    returned a batch: the normal head's rows, or the central-difference
    gradients at the default [bound] and [epsilon]. *)
Definition raw_normals
    (self : NGPradianceField) (positions : list vec3)
    (embedding : list (list R)) : list vec3 :=
  if use_predict_normal self then _query_normal self embedding
  else map (central_gradient (density_at self) default_bound default_epsilon)
           positions.

(** [b] points the way [a] does: a positive multiple of it. *)
Definition same_direction (a b : vec3) : Prop :=
  exists k : R, 0 < k /\ b = vscale k a.

(** The directions, when the field uses them, are given and have one row
    per position. *)
Definition directions_fit
    (self : NGPradianceField) (positions : list vec3)
    (directions : option (list vec3)) : Prop :=
  use_viewdirs self = true ->
  exists dirs, directions = Some dirs /\ List.length dirs = List.length positions.

(** ** A field to evaluate

    Bounded, on the identity bounds, with the default activation and
    finite-difference normals; its networks are small closed functions. *)
Definition sample_field : NGPradianceField := {|
  aabb := unit_box;
  use_viewdirs := true;
  density_activation := default_density_activation;
  unbounded := false;
  use_predict_normal := false;
  density_bias_scale := 10;
  offset_scale := 0.5;
  direction_encoding := fun d => [vx d; vy d; vz d];
  mlp_encoder := fun p => [vx p; vy p; vz p];
  mlp_sigma := fun row => hd 0 row;
  mlp_rgb := fun _ => V3 0.5 0.25 0.75;
  mlp_normal := fun _ => V3 0.5 0.5 0.5
|}.


(** ** _TruncExp *)

(** The autograd context of [_TruncExp]: [forward] saves its input and
    [backward] reads it back as [ctx.saved_tensors[0]]. *)
Record trunc_exp_ctx : Type := { saved_tensor : R }.

Definition TruncExp_forward (x : R) : trunc_exp_ctx * R :=
  ({| saved_tensor := x |}, exp x).

(** [g * torch.exp(torch.clamp(x, max=15))]. *)
Definition TruncExp_backward (ctx : trunc_exp_ctx) (g : R) : R :=
  let x := saved_tensor ctx in
  g * exp (Rmin x 15).

(** [trunc_exp = _TruncExp.apply]: the value of the forward pass. *)
Definition trunc_exp (x : R) : R := snd (TruncExp_forward x).

(** ** The background head, the constructor and get_params *)

(** The attributes of the module beside those of [NGPradianceField]:
    the background flag and head, and the width of the geometry
    feature. *)
Record NGPmodule : Type := {
  base :> NGPradianceField;
  use_predict_bkgd : bool;
  geo_feat_dim : nat;
  mlp_bkgd : list R -> vec3
}.

(** The remapping of directions to the range of the encoder,
    [(dir + 1.0) / 2.0]. *)
Definition to_unit_range (dir : vec3) : vec3 :=
  vmap (fun t => (t + 1.0) / 2.0) dir.

(** [query_bkgd].  The attribute [direction_encoding] exists only under
    [use_viewdirs] and [mlp_bkgd] only under [use_predict_bkgd]; reading
    a missing attribute raises. *)
Definition query_bkgd (self : NGPmodule) (dir : list vec3) : res (list vec3) :=
  let dir := map to_unit_range dir in
  if use_viewdirs self then
    let d := map (direction_encoding self) dir in
    if use_predict_bkgd self then Ok (map (mlp_bkgd self) d)
    else Raise AttributeError
  else Raise AttributeError.

(** The failure of the [assert] of the constructor. *)
Inductive init_error : Type := AssertionError.

(** The networks that tiny-cuda-nn hands to the constructor. *)
Record tcnn_networks : Type := {
  tcnn_direction_encoding : vec3 -> list R;
  tcnn_mlp_encoder : vec3 -> list R;
  tcnn_mlp_sigma : list R -> R;
  tcnn_mlp_rgb : list R -> vec3;
  tcnn_mlp_normal : list R -> vec3;
  tcnn_mlp_bkgd : list R -> vec3
}.

(** [__init__]: the arguments are stored, and the background head is
    built only past [assert self.use_viewdirs is True]. *)
Definition init
    (aabb : box) (use_viewdirs : bool) (density_activation : R -> R)
    (unbounded : bool) (geo_feat_dim : nat) (use_predict_normal : bool)
    (density_bias_scale offset_scale : R) (use_predict_bkgd : bool)
    (nets : tcnn_networks) : init_error + NGPmodule :=
  let self := {|
    base := {|
      aabb := aabb;
      use_viewdirs := use_viewdirs;
      density_activation := density_activation;
      unbounded := unbounded;
      use_predict_normal := use_predict_normal;
      density_bias_scale := density_bias_scale;
      offset_scale := offset_scale;
      direction_encoding := tcnn_direction_encoding nets;
      mlp_encoder := tcnn_mlp_encoder nets;
      mlp_sigma := tcnn_mlp_sigma nets;
      mlp_rgb := tcnn_mlp_rgb nets;
      mlp_normal := tcnn_mlp_normal nets |};
    use_predict_bkgd := use_predict_bkgd;
    geo_feat_dim := geo_feat_dim;
    mlp_bkgd := tcnn_mlp_bkgd nets |} in
  if use_predict_bkgd then
    if use_viewdirs then inr self else inl AssertionError
  else inr self.

(** [n_input_dims] of [mlp_rgb] and of [mlp_normal] in the constructor;
    [dir_dims] is [self.direction_encoding.n_output_dims]. *)
Definition mlp_rgb_n_input_dims (self : NGPmodule) (dir_dims : nat) : nat :=
  (if use_viewdirs self then dir_dims else 0) + 1 + geo_feat_dim self.

(** The sub-networks whose parameters [get_params] lists. *)
Inductive network : Type :=
| Mlp_encoder | Mlp_sigma | Mlp_rgb | Mlp_normal | Mlp_bkgd.

(** A parameter group: the network of ['params'] and its ['lr']. *)
Record param_group : Type := { params : network; lr_of : R }.

Definition get_params (self : NGPmodule) (lr : R) : list param_group :=
  let params := [
    {| params := Mlp_encoder; lr_of := lr |};
    {| params := Mlp_sigma; lr_of := lr |};
    {| params := Mlp_rgb; lr_of := lr |}
  ] in
  let params :=
    if use_predict_normal self then
      params ++ [{| params := Mlp_normal; lr_of := lr |}]
    else params in
  let params :=
    if use_predict_bkgd self then
      params ++ [{| params := Mlp_bkgd; lr_of := lr / 10 |}]
    else params in
  params.

(** The bounded mapping of [query_density],
    [(x - aabb_min) / (aabb_max - aabb_min)]. *)
Definition bounded_map (x : vec3) (aabb : box) : vec3 :=
  vdiv (vsub x (aabb_min aabb)) (vsub (aabb_max aabb) (aabb_min aabb)).

(** The bounds have a positive extent on every axis. *)
Definition proper_box (aabb : box) : Prop :=
  vx (aabb_min aabb) < vx (aabb_max aabb)
  /\ vy (aabb_min aabb) < vy (aabb_max aabb)
  /\ vz (aabb_min aabb) < vz (aabb_max aabb).


(** Every entry of the row lies between [lo] and [hi]. *)
Definition entries_within (lo hi : R) (a : vec3) : Prop :=
  lo <= vx a <= hi /\ lo <= vy a <= hi /\ lo <= vz a <= hi.


(** The networks of [sample_field] and a background head. *)
Definition sample_networks : tcnn_networks := {|
  tcnn_direction_encoding := fun d => [vx d; vy d; vz d];
  tcnn_mlp_encoder := fun p => [vx p; vy p; vz p];
  tcnn_mlp_sigma := fun row => hd 0 row;
  tcnn_mlp_rgb := fun _ => V3 0.5 0.25 0.75;
  tcnn_mlp_normal := fun _ => V3 0.5 0.5 0.5;
  tcnn_mlp_bkgd := fun _ => V3 0.25 0.25 0.25
|}.

(** [sample_field] with a background head; the rows of its encoder have
    width 3, which is [1 + geo_feat_dim]. *)
Definition sample_module : NGPmodule := {|
  base := sample_field;
  use_predict_bkgd := true;
  geo_feat_dim := 2;
  mlp_bkgd := fun _ => V3 0.25 0.25 0.25
|}.


(** A flag counted as 0 or 1. *)
Definition count_flag (b : bool) : nat := if b then 1%nat else 0%nat.

(** ** Overflow

    The real model lets every operation succeed with its exact result.
    Here an operation whose exact result leaves the range of the dtype
    returns an infinity, as the code does; rounding inside the range is
    still left out.  The pre-activation is taken to be finite. *)
Module Overflow.

(** The largest finite binary32 value, [(2 - 2^-23) * 2^127]. *)
Definition float32_max : R := (2 - / 2 ^ 23) * 2 ^ 127.

(** The value of an operation whose exact result is [r]. *)
Definition overflow (float_max r : R) : Ieee.value :=
  if Rgtb r float_max then Ieee.PInf
  else if Rltb r (- float_max) then Ieee.NInf
  else Ieee.Fin r.

(** An operation of [Ieee] whose finite results may overflow. *)
Definition lift2 (float_max : R)
    (op : Ieee.value -> Ieee.value -> Ieee.value) (a b : Ieee.value)
  : Ieee.value :=
  match op a b with
  | Ieee.Fin r => overflow float_max r
  | v => v
  end.

Definition mul (float_max : R) := lift2 float_max Ieee.mul.
Definition add (float_max : R) := lift2 float_max Ieee.add.
Definition div (float_max : R) := lift2 float_max Ieee.div.

(** [self.density_activation(density_before_activation) * selector[..., None]]
    for one row: the activation may overflow, and the product with the
    selector is the IEEE product. *)
Definition density (float_max : R) (self : NGPradianceField) (x : vec3)
  : Ieee.value :=
  let activated :=
    overflow float_max
      (density_activation self (density_before_activation self x)) in
  Ieee.mul activated (Ieee.Fin (of_bool (selector (mapped self x)))).

(** [torch.clamp(torch.sum(x * x, -1, keepdim=True), min=1e-20)], where
    the squares and their sum may overflow. *)
Definition clamped_sumsq (float_max : R) (x : Ieee.row) : Ieee.value :=
  Ieee.clamp_min
    (add float_max
       (add float_max (mul float_max (Ieee.r0 x) (Ieee.r0 x))
                      (mul float_max (Ieee.r1 x) (Ieee.r1 x)))
       (mul float_max (Ieee.r2 x) (Ieee.r2 x)))
    1e-20.

Definition safe_normalize (float_max : R) (x : Ieee.row) : Ieee.row :=
  Ieee.rmap
    (fun t => div float_max t (Ieee.sqrt (clamped_sumsq float_max x))) x.

(** [safe_normalize(normal).nan_to_num_()]. *)
Definition normalized (float_max : R) (x : Ieee.row) : Ieee.row :=
  Ieee.rmap (Ieee.nan_to_num float_max) (safe_normalize float_max x).

End Overflow.



(** ** contract_to_unisphere in binary32

    The branch [derivative=False] of [contract_to_unisphere] on float32
    tensors, operation by operation, with the IEEE 754 arithmetic of
    the Standard Library's [SpecFloat] at precision 24 and maximal
    exponent 128.  The Python scalars 2, 1, 4 and 0.5 are exact in
    binary32. *)
Module F32.

Definition prec : Z := 24.
Definition emax : Z := 128.

Definition of_Z (n : Z) : spec_float := binary_normalize prec emax n 0 false.
Definition half : spec_float := binary_normalize prec emax 1 (-1) false.

Definition add : spec_float -> spec_float -> spec_float := SFadd prec emax.
Definition sub : spec_float -> spec_float -> spec_float := SFsub prec emax.
Definition mul : spec_float -> spec_float -> spec_float := SFmul prec emax.
Definition div : spec_float -> spec_float -> spec_float := SFdiv prec emax.
Definition sqrt : spec_float -> spec_float := SFsqrt prec emax.

(** [a > b] and [a < b]. *)
Definition gtb (a b : spec_float) : bool := SFltb b a.
Definition ltb (a b : spec_float) : bool := SFltb a b.

Record vec3 : Type := V3 { vx : spec_float; vy : spec_float; vz : spec_float }.

Definition vmap (f : spec_float -> spec_float) (a : vec3) : vec3 :=
  V3 (f (vx a)) (f (vy a)) (f (vz a)).

Definition vmap2 (f : spec_float -> spec_float -> spec_float) (a b : vec3)
  : vec3 :=
  V3 (f (vx a) (vx b)) (f (vy a) (vy b)) (f (vz a) (vz b)).

(** [x.norm(dim=-1)]. *)
Definition norm (a : vec3) : spec_float :=
  sqrt (add (add (mul (vx a) (vx a)) (mul (vy a) (vy a))) (mul (vz a) (vz a))).

Definition rescale (x aabb_min aabb_max : vec3) : vec3 :=
  let x := vmap2 div (vmap2 sub x aabb_min) (vmap2 sub aabb_max aabb_min) in
  vmap (fun t => sub (mul t (of_Z 2)) (of_Z 1)) x.

Definition contraction (mag : spec_float) (x : vec3) : vec3 :=
  vmap (fun t => mul (sub (of_Z 2) (div (of_Z 1) mag)) (div t mag)) x.

Definition contract_to_unisphere (x aabb_min aabb_max : vec3) : vec3 :=
  let x := rescale x aabb_min aabb_max in
  let mag := norm x in
  let mask := gtb mag (of_Z 1) in
  let x := if mask then contraction mag x else x in
  vmap (fun t => add (div t (of_Z 4)) half) x.

(** [((x > 0.0) & (x < 1.0)).all(dim=-1)]. *)
Definition selector (x : vec3) : bool :=
  (gtb (vx x) (of_Z 0) && ltb (vx x) (of_Z 1))
  && (gtb (vy x) (of_Z 0) && ltb (vy x) (of_Z 1))
  && (gtb (vz x) (of_Z 0) && ltb (vz x) (of_Z 1)).


End F32.

(** A bounded field on the identity bounds with the truncated
    exponential for activation and a density head that returns 1000. *)
Definition overflow_field : NGPradianceField := {|
  aabb := unit_box;
  use_viewdirs := true;
  density_activation := trunc_exp;
  unbounded := false;
  use_predict_normal := true;
  density_bias_scale := 10;
  offset_scale := 0.5;
  direction_encoding := fun d => [vx d; vy d; vz d];
  mlp_encoder := fun p => [vx p; vy p; vz p];
  mlp_sigma := fun _ => 1000;
  mlp_rgb := fun _ => V3 0.5 0.25 0.75;
  mlp_normal := fun _ => V3 0.5 0.5 0.5
|}.

(** * Properties *)

(** ** Comparisons, rows and norms *)

Lemma Rgtb_true (a b : R) : Rgtb a b = true <-> b < a.
Proof.
  unfold Rgtb. destruct (Rlt_dec b a); split; intros; try easy.
Qed.

Lemma Rgtb_false (a b : R) : Rgtb a b = false <-> a <= b.
Proof.
  unfold Rgtb. destruct (Rlt_dec b a); split; intros; try easy; lra.
Qed.

Lemma Rltb_true (a b : R) : Rltb a b = true <-> a < b.
Proof.
  unfold Rltb. destruct (Rlt_dec a b); split; intros; try easy.
Qed.

Lemma Rltb_false (a b : R) : Rltb a b = false <-> b <= a.
Proof.
  unfold Rltb. destruct (Rlt_dec a b); split; intros; try easy; lra.
Qed.

Lemma truthy_true (a : R) : a <> 0 -> truthy a = true.
Proof.
  intros H. unfold truthy. destruct (Req_dec_T a 0); [contradiction | reflexivity].
Qed.

Lemma vec3_eq (a b : vec3) :
  vx a = vx b -> vy a = vy b -> vz a = vz b -> a = b.
Proof.
  destruct a, b; simpl; intros; subst; reflexivity.
Qed.

(** Two rows given entry by entry: compare the entries with [lra]. *)
Ltac vec3_lra :=
  apply vec3_eq;
  unfold rescale, contraction, vscale, vdivs, vadd, vsub, vmul, vdiv;
  simpl; lra.

Lemma sumsq_nonneg (a : vec3) : 0 <= sumsq a.
Proof.
  unfold sumsq, vsum; simpl.
  pose proof (pow2_ge_0 (vx a)); pose proof (pow2_ge_0 (vy a));
    pose proof (pow2_ge_0 (vz a)); lra.
Qed.

Lemma norm_nonneg (a : vec3) : 0 <= norm a.
Proof. apply sqrt_pos. Qed.

Lemma norm_sq (a : vec3) : norm a * norm a = sumsq a.
Proof. apply sqrt_sqrt, sumsq_nonneg. Qed.

Lemma sumsq_mul (a : vec3) : vsum (vmul a a) = sumsq a.
Proof. unfold sumsq, vsum, vmul; simpl; ring. Qed.

(** No entry of a row exceeds the norm of the row. *)
Lemma entry_sq_le_norm_sq (a : vec3) :
  vx a * vx a <= norm a * norm a /\
  vy a * vy a <= norm a * norm a /\
  vz a * vz a <= norm a * norm a.
Proof.
  rewrite norm_sq. unfold sumsq, vsum; simpl.
  pose proof (pow2_ge_0 (vx a)); pose proof (pow2_ge_0 (vy a));
    pose proof (pow2_ge_0 (vz a)).
  repeat split; nra.
Qed.

(** ** The contraction *)


Lemma rescale_unit_box (x : vec3) : rescale x unit_box = x.
Proof.
  vec3_lra.
Qed.


Lemma norm_axis_x (t : R) : 0 <= t -> norm (V3 t 0 0) = t.
Proof.
  intros Ht. unfold norm, sumsq, vsum; simpl.
  replace (t * (t * 1) + 0 * (0 * 1) + 0 * (0 * 1)) with (t * t) by ring.
  apply sqrt_square, Ht.
Qed.





Lemma contraction_one (r : vec3) : contraction 1 r = r.
Proof.
  apply vec3_eq; unfold contraction, vscale, vdivs; simpl; field.
Qed.

(** C7.  Continuity of the contraction at magnitude 1: on a point whose
    rescaled magnitude is 1 the formula of the masked branch returns the
    point itself, so both branches give the value the function returns. *)
Theorem contraction_continuous_at_one (x : vec3) (aabb : box) (eps : R) :
  norm (rescale x aabb) = 1 ->
  let r := rescale x aabb in
  contraction (norm r) r = r /\
  contract_to_unisphere x aabb eps false = vmap (fun t => t / 4 + 0.5) r /\
  contract_to_unisphere x aabb eps false
    = vmap (fun t => t / 4 + 0.5) (contraction (norm r) r).
Proof.
  intros Hm r. subst r.
  set (r := rescale x aabb) in *.
  assert (Hc : contraction (norm r) r = r).
  { rewrite Hm. apply contraction_one. }
  assert (Hu : contract_to_unisphere x aabb eps false
               = vmap (fun t => t / 4 + 0.5) r).
  { unfold contract_to_unisphere. fold r.
    assert (Hf : Rgtb (norm r) 1 = false) by (apply Rgtb_false; lra).
    rewrite Hf. reflexivity. }
  repeat split; [exact Hc | exact Hu | rewrite Hc; exact Hu].
Qed.

Lemma contraction_continuous_at_one_witness :
  norm (rescale (V3 1 0 0) unit_box) = 1 /\
  contraction (norm (rescale (V3 1 0 0) unit_box)) (rescale (V3 1 0 0) unit_box)
    = rescale (V3 1 0 0) unit_box.
Proof.
  assert (H : norm (rescale (V3 1 0 0) unit_box) = 1).
  { rewrite rescale_unit_box, norm_axis_x; lra. }
  split; [exact H |].
  exact (proj1 (contraction_continuous_at_one (V3 1 0 0) unit_box default_eps H)).
Defined.

(** ** query_density *)

Lemma selector_true (m : vec3) : selector m = true <-> inside_unit_cube m.
Proof.
  unfold selector, vall, inside_unit_cube.
  rewrite !andb_true_iff, !Rgtb_true, !Rltb_true. tauto.
Qed.

Lemma selector_false (m : vec3) : selector m = false <-> ~ inside_unit_cube m.
Proof.
  rewrite <- selector_true. destruct (selector m); split; intros; easy.
Qed.

Lemma query_density_row_density (self : NGPradianceField) (x : vec3) :
  fst (query_density_row self x)
  = density_activation self (density_before_activation self x)
    * of_bool (selector (mapped self x)).
Proof. reflexivity. Qed.

Lemma density_of_query_density
    (self : NGPradianceField) (xs : list vec3) (return_feat : bool) :
  density_of (query_density self xs return_feat)
  = map (fun x => fst (query_density_row self x)) xs.
Proof.
  unfold query_density. destruct return_feat; simpl; apply map_map.
Qed.

(** ** Masking and overflow *)

Lemma overflow_in_range (float_max r : R) :
  Rabs r <= float_max -> Overflow.overflow float_max r = Ieee.Fin r.
Proof.
  intros H. unfold Overflow.overflow.
  assert (Hr : - float_max <= r <= float_max).
  { unfold Rabs in H. destruct (Rcase_abs r); lra. }
  rewrite (proj2 (Rgtb_false r float_max)) by lra.
  now rewrite (proj2 (Rltb_false r (- float_max))) by lra.
Qed.

Lemma overflow_above (float_max r : R) :
  float_max < r -> Overflow.overflow float_max r = Ieee.PInf.
Proof.
  intros H. unfold Overflow.overflow.
  now rewrite (proj2 (Rgtb_true r float_max)) by exact H.
Qed.

(** While the activation stays in range, the density with overflow is
    the density of the real model. *)
Lemma density_in_range (float_max : R) (self : NGPradianceField) (x : vec3) :
  Rabs (density_activation self (density_before_activation self x)) <= float_max ->
  Overflow.density float_max self x = Ieee.Fin (density_at self x).
Proof.
  intros H. unfold Overflow.density. cbn zeta.
  rewrite (overflow_in_range _ _ H). reflexivity.
Qed.

Lemma pow2_le_exp (n : nat) : 2 ^ n <= exp (INR n).
Proof.
  induction n as [|n IH].
  - simpl. rewrite exp_0. lra.
  - rewrite S_INR, exp_plus. simpl.
    pose proof (exp_ineq1_le 1). pose proof (exp_pos (INR n)).
    pose proof (pow_lt 2 n). nra.
Qed.

Lemma exp_monotone (a b : R) : a <= b -> exp a <= exp b.
Proof.
  intros [H | ->]; [left; now apply exp_increasing | right; reflexivity].
Qed.

(** [exp] leaves the binary32 range from 128 on. *)
Lemma exp_above_float32_max (t : R) : 128 <= t -> Overflow.float32_max < exp t.
Proof.
  intros Ht.
  pose proof (pow2_le_exp 128) as Hp.
  replace (INR 128) with 128 in Hp by (simpl; lra).
  pose proof (exp_monotone _ _ Ht).
  assert (Overflow.float32_max < 2 ^ 128)
    by (unfold Overflow.float32_max; lra).
  lra.
Qed.

Lemma float32_max_large : 21 <= Overflow.float32_max.
Proof. unfold Overflow.float32_max. lra. Qed.

Lemma softplus_pos (t : R) : 0 < softplus t.
Proof.
  unfold softplus. destruct (Rgtb t 20) eqn:E.
  - apply Rgtb_true in E. lra.
  - rewrite <- ln_1. apply ln_increasing; [lra |].
    pose proof (exp_pos t). lra.
Qed.

(** The default activation stays below the larger of its argument
    and 21. *)
Lemma softplus_le (t : R) : softplus t <= Rmax t 21.
Proof.
  unfold softplus. destruct (Rgtb t 20) eqn:E.
  - apply Rmax_l.
  - apply Rgtb_false in E.
    apply Rle_trans with 21; [|apply Rmax_r].
    rewrite <- (ln_exp 21).
    pose proof (exp_pos t) as Hp.
    assert (Hle : 1 + exp t <= exp 21).
    { pose proof (exp_monotone _ _ E) as H20.
      replace 21 with (20 + 1) by lra. rewrite exp_plus.
      pose proof (exp_ineq1_le 1). pose proof (exp_pos 20).
      pose proof (exp_ineq1_le 20). nra. }
    destruct Hle as [Hlt | Heq].
    + left. apply ln_increasing; lra.
    + right. now rewrite Heq.
Qed.

(** C2, as amended.  Selector masking: wherever the mapped position is
    not strictly inside the unit cube, the density is exactly 0 as long
    as the value of the activation is finite; with the default
    [softplus(x - 1)] that is the case for every pre-activation in the
    range of the dtype. *)
Theorem density_zero_outside_in_range
    (float_max : R) (self : NGPradianceField) (x : vec3) :
  ~ inside_unit_cube (mapped self x) ->
  (Rabs (density_activation self (density_before_activation self x))
   <= float_max ->
   Overflow.density float_max self x = Ieee.Fin 0)
  /\ ((forall t, density_activation self t = default_density_activation t) ->
      21 <= float_max ->
      density_before_activation self x <= float_max ->
      Overflow.density float_max self x = Ieee.Fin 0).
Proof.
  intros Hout.
  assert (Hz : density_at self x = 0).
  { unfold density_at.
    rewrite query_density_row_density, (proj2 (selector_false _) Hout).
    simpl. ring. }
  assert (A : Rabs (density_activation self (density_before_activation self x))
              <= float_max ->
              Overflow.density float_max self x = Ieee.Fin 0).
  { intros H. now rewrite density_in_range, Hz. }
  split; [exact A |].
  intros Hact Hfm Hpre. apply A. rewrite Hact.
  unfold default_density_activation.
  pose proof (softplus_pos (density_before_activation self x - 1)) as Hp.
  pose proof (softplus_le (density_before_activation self x - 1)) as Hle.
  rewrite Rabs_pos_eq by lra.
  apply Rle_trans with (1 := Hle). apply Rmax_lub; lra.
Qed.

Lemma density_zero_outside_in_range_witness :
  ~ inside_unit_cube (mapped sample_field (V3 1 0 0))
  /\ Overflow.density Overflow.float32_max sample_field (V3 1 0 0) = Ieee.Fin 0.
Proof.
  assert (Hout : ~ inside_unit_cube (mapped sample_field (V3 1 0 0))).
  { unfold inside_unit_cube, mapped; simpl. lra. }
  split; [exact Hout |].
  apply (proj2 (density_zero_outside_in_range Overflow.float32_max
                  sample_field (V3 1 0 0) Hout)).
  - intros t. reflexivity.
  - exact float32_max_large.
  - unfold density_before_activation, density_bias. fold (norm (V3 1 0 0)).
    rewrite norm_axis_x by lra.
    pose proof float32_max_large.
    unfold default_density_bias_scale, default_offset_scale; simpl. lra.
Defined.

Lemma overflow_field_outside :
  ~ inside_unit_cube (mapped overflow_field (V3 2 0 0)).
Proof. unfold inside_unit_cube, mapped; simpl. lra. Qed.

Lemma overflow_field_pre_activation :
  density_before_activation overflow_field (V3 2 0 0) = 970.
Proof.
  unfold density_before_activation, density_bias. fold (norm (V3 2 0 0)).
  rewrite norm_axis_x by lra.
  unfold default_density_bias_scale, default_offset_scale; simpl. lra.
Qed.

Lemma overflow_field_density :
  Overflow.density Overflow.float32_max overflow_field (V3 2 0 0) = Ieee.NaN.
Proof.
  unfold Overflow.density. cbn zeta.
  rewrite overflow_field_pre_activation,
    (proj2 (selector_false _) overflow_field_outside).
  change (density_activation overflow_field 970) with (exp 970).
  rewrite overflow_above by (apply exp_above_float32_max; lra).
  cbn [of_bool Ieee.mul]. unfold Ieee.scale_inf.
  destruct (Req_dec_T 0 0); [reflexivity | contradiction].
Qed.

(** C2, the claim as worded fails.  [overflow_field] has the truncated
    exponential for activation and a density head that returns 1000.
    At (2, 0, 0) the mapped position (1.5, 0.5, 0.5) is outside the
    unit cube and the pre-activation is 1000 + 10 * (1 - 2 / 0.5) = 970;
    [exp 970] overflows binary32, and infinity times the False selector
    is NaN, not 0. *)
Lemma density_nan_outside_on_overflow :
  ~ inside_unit_cube (mapped overflow_field (V3 2 0 0))
  /\ density_before_activation overflow_field (V3 2 0 0) = 970
  /\ Overflow.density Overflow.float32_max overflow_field (V3 2 0 0) = Ieee.NaN
  /\ Ieee.NaN <> Ieee.Fin 0.
Proof.
  split; [exact overflow_field_outside |].
  split; [exact overflow_field_pre_activation |].
  split; [exact overflow_field_density | discriminate].
Qed.

(** C3.  The bias inside [query_density] is
    [10 * (1 - sqrt(sum(x^2)) / 0.5)] on the position as passed in: it
    enters the pre-activation and the density in that form, and two
    fields that differ only in the stored [density_bias_scale] and
    [offset_scale] return the same from [query_density]. *)
Theorem query_density_bias_ignores_config
    (self : NGPradianceField) (x : vec3) :
  density_before_activation self x
  = mlp_sigma self (mlp_encoder self (mapped self x))
    + 10 * (1 - sqrt (vx x ^ 2 + vy x ^ 2 + vz x ^ 2) / 0.5)
  /\ fst (query_density_row self x)
     = density_activation self
         (mlp_sigma self (mlp_encoder self (mapped self x))
          + 10 * (1 - sqrt (vx x ^ 2 + vy x ^ 2 + vz x ^ 2) / 0.5))
       * of_bool (selector (mapped self x))
  /\ forall (scale offset : R) (xs : list vec3) (return_feat : bool),
       query_density
         {| aabb := aabb self; use_viewdirs := use_viewdirs self;
            density_activation := density_activation self;
            unbounded := unbounded self;
            use_predict_normal := use_predict_normal self;
            density_bias_scale := scale; offset_scale := offset;
            direction_encoding := direction_encoding self;
            mlp_encoder := mlp_encoder self; mlp_sigma := mlp_sigma self;
            mlp_rgb := mlp_rgb self; mlp_normal := mlp_normal self |}
         xs return_feat
       = query_density self xs return_feat.
Proof.
  repeat split.
Qed.

(** ** The default activation *)

(** C4.  With the default activation [softplus(x - 1)] every density that
    [query_density] returns is at least 0. *)
Theorem query_density_default_nonneg
    (self : NGPradianceField) (xs : list vec3) (return_feat : bool) :
  (forall t, density_activation self t = default_density_activation t) ->
  Forall (fun d => 0 <= d) (density_of (query_density self xs return_feat)).
Proof.
  intros Hact. rewrite density_of_query_density.
  apply Forall_forall. intros d Hd.
  apply in_map_iff in Hd. destruct Hd as (x & <- & _).
  rewrite query_density_row_density, Hact.
  pose proof (softplus_pos (density_before_activation self x - 1)).
  unfold default_density_activation.
  destruct (selector (mapped self x)); simpl; lra.
Qed.

Lemma query_density_default_nonneg_witness :
  Forall (fun d => 0 <= d)
    (density_of (query_density sample_field [V3 0 0 0; V3 3 0 0] true)).
Proof.
  apply (query_density_default_nonneg sample_field).
  intros t. reflexivity.
Defined.

(** ** The finite-difference estimator *)

Lemma bcast2_same_length (f : R -> R -> R) (a b : list R) :
  List.length a = List.length b -> bcast2 f a b = Ok (zip_with f a b).
Proof.
  intros H. unfold bcast2.
  destruct a as [|s [|s' a]], b as [|t [|t' b]]; try discriminate H;
    try reflexivity.
  rewrite H, Nat.eqb_refl. reflexivity.
Qed.

Lemma zip_with_map (f : R -> R -> R) (g h : vec3 -> R) (ps : list vec3) :
  zip_with f (map g ps) (map h ps) = map (fun p => f (g p) (h p)) ps.
Proof.
  induction ps as [|p ps IH]; simpl; [reflexivity | now rewrite IH].
Qed.

Lemma zip3_map (a b c : vec3 -> R) (ps : list vec3) :
  zip3 (map a ps) (map b ps) (map c ps)
  = Ok (map (fun p => V3 (a p) (b p) (c p)) ps).
Proof.
  induction ps as [|p ps IH]; simpl; [reflexivity | now rewrite IH].
Qed.

(** With a truthy flag, [query_density(...)[0]] is the density column. *)
Lemma getitem0_query_density_feat
    (self : NGPradianceField) (g : vec3 -> vec3) (ps : list vec3) :
  getitem0 (query_density self (map g ps) true)
  = Ok (Column (map (fun p => density_at self (g p)) ps)).
Proof.
  unfold query_density; simpl. now rewrite !map_map.
Qed.

Lemma central_differences_columns (g h : vec3 -> R) (ps : list vec3) (epsilon : R) :
  central_differences (Column (map g ps)) (Column (map h ps)) epsilon
  = Ok (Column (map (fun p => central_difference (g p) (h p) epsilon) ps)).
Proof.
  unfold central_differences.
  rewrite bcast2_same_length by now rewrite !length_map.
  simpl. now rewrite zip_with_map.
Qed.

Lemma clamp_in_box (t bound : R) :
  0 <= bound -> - bound <= clamp t (- bound) bound <= bound.
Proof.
  intros Hb. unfold clamp, Rmin, Rmax.
  destruct (Rle_dec t (- bound)); destruct (Rle_dec _ bound); lra.
Qed.

Lemma finite_difference_truthy
    (self : NGPradianceField) (positions : list vec3) (bound epsilon : R) :
  bound <> 0 ->
  _finite_difference_normals_approximator self positions bound epsilon
  = Ok (NBatch (map (central_gradient (density_at self) bound epsilon) positions)).
Proof.
  intros Hb. unfold _finite_difference_normals_approximator.
  rewrite (truthy_true _ Hb), !map_map.
  rewrite !getitem0_query_density_feat. cbn [bind].
  rewrite !central_differences_columns. cbn [bind cat3].
  rewrite zip3_map. cbn [bind]. do 2 f_equal.
  apply map_ext. intros p. unfold central_gradient, central_difference.
  assert (E : forall a b, a = b ->
            density_at self (vclamp a (- bound) bound)
            = density_at self (vclamp b (- bound) bound))
    by (intros; subst; reflexivity).
  f_equal; f_equal; f_equal; f_equal; apply E; vec3_lra.
Qed.



(** C5.  The estimator, called with a [bound] other than 0 (its default
    is 2), returns for every point the central-difference gradient of
    the density of [query_density]: each axis perturbed by plus and
    minus [epsilon], each of the six points clamped to
    [[-bound, bound]], only the density kept, and the components
    [0.5 * (density(p + eps * axis) - density(p - eps * axis)) / epsilon]. *)
Theorem finite_difference_normals_central
    (self : NGPradianceField) (positions : list vec3) (bound epsilon : R) :
  bound <> 0 ->
  _finite_difference_normals_approximator self positions bound epsilon
  = Ok (NBatch (map (central_gradient (density_at self) bound epsilon) positions))
  /\ (0 <= bound ->
      forall q : vec3,
        let c := vclamp q (- bound) bound in
        - bound <= vx c <= bound /\ - bound <= vy c <= bound
        /\ - bound <= vz c <= bound).
Proof.
  intros Hb. split.
  - apply finite_difference_truthy, Hb.
  - intros H0 q c. unfold c, vclamp; simpl.
    repeat split; apply clamp_in_box; exact H0.
Qed.

Lemma finite_difference_normals_central_witness :
  default_bound <> 0 /\
  _finite_difference_normals_approximator
    sample_field [V3 0 0 0] default_bound default_epsilon
  = Ok (NBatch (map (central_gradient (density_at sample_field)
                       default_bound default_epsilon) [V3 0 0 0])).
Proof.
  assert (H : default_bound <> 0) by (unfold default_bound; lra).
  split; [exact H |].
  exact (proj1 (finite_difference_normals_central
                  sample_field [V3 0 0 0] default_bound default_epsilon H)).
Defined.

(** ** forward *)

Lemma query_density_feat (self : NGPradianceField) (positions : list vec3) :
  query_density self positions true
  = QDensityFeat (map (density_at self) positions) (features self positions).
Proof.
  unfold query_density, features, density_at. now rewrite !map_map.
Qed.

Lemma cat_rows_length (d e t : list (list R)) :
  cat_rows d e = Ok t -> List.length t = List.length e.
Proof.
  revert e t. induction d as [|r d IH]; intros [|s e] t H; simpl in H;
    try discriminate H.
  - now inversion H.
  - destruct (cat_rows d e) as [u|] eqn:E; simpl in H; [|discriminate H].
    inversion H; subst. simpl. f_equal. now apply IH.
Qed.

Lemma cat_rows_ok (d e : list (list R)) :
  List.length d = List.length e -> exists t, cat_rows d e = Ok t.
Proof.
  revert e. induction d as [|r d IH]; intros [|s e] H; simpl in H;
    try discriminate H.
  - now exists [].
  - destruct (IH e) as (t & Ht); [now inversion H|].
    exists ((r ++ s) :: t). simpl. now rewrite Ht.
Qed.

Lemma _compute_embedding_length
    (self : NGPradianceField) (dir : option (list vec3))
    (embedding out : list (list R)) :
  _compute_embedding self dir embedding = Ok out ->
  List.length out = List.length embedding.
Proof.
  unfold _compute_embedding.
  destruct (use_viewdirs self); [destruct dir|]; intros H.
  - eapply cat_rows_length; eassumption.
  - discriminate H.
  - now inversion H.
Qed.

Lemma _compute_embedding_ok
    (self : NGPradianceField) (positions : list vec3)
    (directions : option (list vec3)) :
  directions_fit self positions directions ->
  exists embedding,
    _compute_embedding self directions (features self positions) = Ok embedding.
Proof.
  intros Hfit. unfold _compute_embedding.
  destruct (use_viewdirs self) eqn:E; [|eexists; reflexivity].
  destruct (Hfit E) as (dirs & -> & Hlen).
  apply cat_rows_ok. unfold features. now rewrite !length_map.
Qed.

(** C9.  Albedo shading: every call that returns has [None] for normal
    and, for rgb, the colour head's output on the embedding, as it is;
    and a call whose directions fit does return. *)
Theorem forward_albedo
    (self : NGPradianceField) (positions : list vec3)
    (directions : option (list vec3)) (light_direction : option vec3)
    (ambient_ratio : R) :
  (forall out,
     forward self positions directions "albedo" light_direction ambient_ratio
     = Ok out ->
     snd out = None
     /\ snd (fst out) = density_of (query_density self positions true)
     /\ exists embedding,
          _compute_embedding self directions (features self positions)
          = Ok embedding
          /\ fst (fst out) = _query_rgb self embedding)
  /\ (directions_fit self positions directions ->
      exists embedding,
        _compute_embedding self directions (features self positions)
        = Ok embedding
        /\ forward self positions directions "albedo" light_direction
             ambient_ratio
           = Ok (map (mlp_rgb self) embedding,
                 map (density_at self) positions,
                 None)).
Proof.
  assert (Hf : forall embedding,
             _compute_embedding self directions (features self positions)
             = Ok embedding ->
             forward self positions directions "albedo" light_direction
               ambient_ratio
             = Ok (map (mlp_rgb self) embedding,
                   map (density_at self) positions, None)).
  { intros embedding He. unfold forward.
    rewrite query_density_feat, He. reflexivity. }
  split.
  - intros out Hout.
    destruct (_compute_embedding self directions (features self positions))
      as [embedding | e] eqn:He.
    + rewrite (Hf embedding eq_refl) in Hout. inversion Hout; subst.
      rewrite query_density_feat. cbn [fst snd density_of].
      repeat split. exists embedding. split; reflexivity.
    + unfold forward in Hout. rewrite query_density_feat, He in Hout.
      discriminate Hout.
  - intros Hfit.
    destruct (_compute_embedding_ok _ _ _ Hfit) as (embedding & He).
    exists embedding. split; [exact He | exact (Hf embedding He)].
Qed.

Lemma forward_albedo_witness :
  directions_fit sample_field [V3 0 0 0] (Some [V3 0 0 1]) /\
  exists embedding,
    _compute_embedding sample_field (Some [V3 0 0 1])
      (features sample_field [V3 0 0 0]) = Ok embedding
    /\ forward sample_field [V3 0 0 0] (Some [V3 0 0 1]) "albedo" None
         default_ambient_ratio
       = Ok (map (mlp_rgb sample_field) embedding,
             map (density_at sample_field) [V3 0 0 0],
             None).
Proof.
  assert (H : directions_fit sample_field [V3 0 0 0] (Some [V3 0 0 1])).
  { intros _. exists [V3 0 0 1]. split; reflexivity. }
  split; [exact H |].
  exact (proj2 (forward_albedo sample_field [V3 0 0 0] (Some [V3 0 0 1]) None
                  default_ambient_ratio) H).
Defined.

Lemma vmap_nan_to_num (v : vec3) : vmap nan_to_num v = v.
Proof. now destruct v. Qed.

Lemma default_bound_nonzero : default_bound <> 0.
Proof. unfold default_bound. lra. Qed.

(** [forward] past the albedo test, on a call that has its embedding and
    its light direction. *)
Lemma forward_shaded
    (self : NGPradianceField) (positions : list vec3)
    (directions : option (list vec3)) (shading : string)
    (light_direction : vec3) (ambient_ratio : R) (embedding : list (list R)) :
  (shading =? "albedo")%string = false ->
  _compute_embedding self directions (features self positions) = Ok embedding ->
  forward self positions directions shading (Some light_direction) ambient_ratio
  = (let normal := map safe_normalize (raw_normals self positions embedding) in
     let lambertian :=
       Column (map (fun r => lambertian_term ambient_ratio r light_direction)
                   normal) in
     rgb <-
       (if (shading =? "textureless")%string then Ok (repeat_1_3 lambertian)
        else if (shading =? "lambertian")%string then
          mul_rgb (_query_rgb self embedding) lambertian
        else Ok (_query_rgb self embedding)) ;;
     Ok (rgb, map (density_at self) positions, Some (NBatch normal))).
Proof.
  intros Halb He. unfold forward.
  rewrite query_density_feat, He. cbn [bind]. rewrite Halb.
  assert (Hn : (if use_predict_normal self
                then Ok (NBatch (_query_normal self embedding))
                else _finite_difference_normals_approximator
                       self positions default_bound default_epsilon)
               = Ok (NBatch (raw_normals self positions embedding))).
  { unfold raw_normals. destruct (use_predict_normal self); [reflexivity |].
    apply finite_difference_truthy, default_bound_nonzero. }
  rewrite Hn. cbn [bind nmap lambertian_of].
  assert (Hm : map (fun x => vmap nan_to_num (safe_normalize x))
                   (raw_normals self positions embedding)
               = map safe_normalize (raw_normals self positions embedding)).
  { apply map_ext. intros v. apply vmap_nan_to_num. }
  rewrite Hm.
  destruct (shading =? "textureless")%string; [reflexivity |].
  destruct (shading =? "lambertian")%string; [|reflexivity].
  destruct (mul_rgb _ _); reflexivity.
Qed.


(** A shading mode that is none of the three returns as well: the colour
    head's output, the density and the normalised normals. *)
Lemma forward_other_shading
    (self : NGPradianceField) (positions : list vec3)
    (directions : option (list vec3)) (shading : string)
    (light_direction : vec3) (ambient_ratio : R) :
  (shading =? "albedo")%string = false ->
  (shading =? "textureless")%string = false ->
  (shading =? "lambertian")%string = false ->
  directions_fit self positions directions ->
  exists embedding,
    _compute_embedding self directions (features self positions) = Ok embedding
    /\ forward self positions directions shading (Some light_direction)
         ambient_ratio
       = Ok (map (mlp_rgb self) embedding,
             map (density_at self) positions,
             Some (NBatch (map safe_normalize
                             (raw_normals self positions embedding)))).
Proof.
  intros Ha Ht Hl Hfit.
  destruct (_compute_embedding_ok _ _ _ Hfit) as (embedding & He).
  exists embedding. split; [exact He |].
  rewrite (forward_shaded _ _ _ _ _ _ _ Ha He), Ht, Hl. reflexivity.
Qed.

(** C1, on the code.  With the shading mode ["phong"] the call returns:
    the rgb is the colour head's output and no exception is raised, in
    particular not [NotImplementedError]. *)
Theorem forward_phong_returns :
  (exists normal,
     forward sample_field [V3 0 0 0] (Some [V3 0 0 1]) "phong"
       (Some (V3 0 0 1)) default_ambient_ratio
     = Ok ([V3 0.5 0.25 0.75], [density_at sample_field (V3 0 0 0)],
           Some normal))
  /\ forward sample_field [V3 0 0 0] (Some [V3 0 0 1]) "phong"
       (Some (V3 0 0 1)) default_ambient_ratio
     <> Raise NotImplementedError.
Proof.
  assert (Hfit : directions_fit sample_field [V3 0 0 0] (Some [V3 0 0 1])).
  { intros _. exists [V3 0 0 1]. split; reflexivity. }
  destruct (forward_other_shading sample_field [V3 0 0 0] (Some [V3 0 0 1])
              "phong" (V3 0 0 1) default_ambient_ratio
              eq_refl eq_refl eq_refl Hfit) as (embedding & He & Hf).
  rewrite Hf. split; [|discriminate].
  eexists. do 2 f_equal.
  apply _compute_embedding_length in He.
  destruct embedding as [|row [|row' rest]]; try discriminate He.
  reflexivity.
Qed.

(** ** Normalisation and the Lambertian term *)

Lemma sqrt_1e_20 : sqrt 1e-20 = 1e-10.
Proof.
  replace 1e-20 with (1e-10 * 1e-10) by lra. apply sqrt_square. lra.
Qed.

(** Below the clamp the divisor is the constant [1e-10]. *)
Lemma safe_normalize_clamped (r : vec3) :
  sumsq r <= 1e-20 -> safe_normalize r = vdivs r 1e-10.
Proof.
  intros H. unfold safe_normalize, clamp_min.
  rewrite sumsq_mul, Rmax_right by exact H. now rewrite sqrt_1e_20.
Qed.

(** From the clamp upwards the divisor is the norm and the result has
    unit length. *)
Lemma safe_normalize_unit (r : vec3) :
  1e-20 <= sumsq r ->
  safe_normalize r = vdivs r (norm r) /\ norm (safe_normalize r) = 1.
Proof.
  intros H.
  assert (E : safe_normalize r = vdivs r (norm r)).
  { unfold safe_normalize, clamp_min. rewrite sumsq_mul, Rmax_left by exact H.
    reflexivity. }
  split; [exact E |]. rewrite E.
  assert (Hpos : 0 < norm r).
  { unfold norm. apply sqrt_lt_R0. lra. }
  unfold norm at 1. unfold sumsq, vsum, vdivs; simpl.
  replace (vx r / norm r * (vx r / norm r * 1)
           + vy r / norm r * (vy r / norm r * 1)
           + vz r / norm r * (vz r / norm r * 1))
    with (sumsq r / (norm r * norm r))
    by (unfold sumsq, vsum; simpl; field; lra).
  rewrite norm_sq. replace (sumsq r / sumsq r) with 1 by (field; lra).
  apply sqrt_1.
Qed.







(** ** Normalisation over the extended values *)

Lemma clamped_positive (s : R) : 0 < sqrt (Rmax s 1e-20).
Proof.
  apply sqrt_lt_R0. pose proof (Rmax_r s 1e-20). lra.
Qed.

Lemma div_by_clamped (t s : R) :
  Ieee.div (Ieee.Fin t) (Ieee.sqrt (Ieee.Fin (Rmax s 1e-20)))
  = Ieee.Fin (t / sqrt (Rmax s 1e-20)).
Proof.
  unfold Ieee.sqrt.
  assert (Hs : Rltb (Rmax s 1e-20) 0 = false).
  { apply Rltb_false. pose proof (Rmax_r s 1e-20). lra. }
  rewrite Hs. unfold Ieee.div.
  destruct (Req_dec_T (sqrt (Rmax s 1e-20)) 0) as [E|E]; [|reflexivity].
  pose proof (clamped_positive s). lra.
Qed.

(** On finite rows the extended [safe_normalize] never divides by zero
    and is the [safe_normalize] of the real model. *)
Lemma safe_normalize_of_vec3 (v : vec3) :
  Ieee.safe_normalize (Ieee.of_vec3 v) = Ieee.of_vec3 (safe_normalize v).
Proof.
  unfold Ieee.safe_normalize, Ieee.divisor, Ieee.clamped_sumsq, Ieee.rmap,
    Ieee.of_vec3.
  cbn [Ieee.r0 Ieee.r1 Ieee.r2 Ieee.mul Ieee.add Ieee.clamp_min].
  rewrite !div_by_clamped. reflexivity.
Qed.

(** No entry of a normalised row is infinite: it is finite or NaN. *)
Lemma safe_normalize_entry (x : Ieee.row) (e : Ieee.value) :
  In e (Ieee.entries (Ieee.safe_normalize x)) ->
  Ieee.is_finite e = true \/ e = Ieee.NaN.
Proof.
  destruct x as [a b c].
  unfold Ieee.safe_normalize, Ieee.divisor, Ieee.clamped_sumsq, Ieee.rmap,
    Ieee.entries.
  cbn [Ieee.r0 Ieee.r1 Ieee.r2].
  destruct a, b, c;
    cbn [Ieee.mul Ieee.add Ieee.clamp_min];
    rewrite ?div_by_clamped;
    intros [<- | [<- | [<- | []]]]; cbn; auto.
Qed.

(** C10.  [safe_normalize] on the zero row: the squared norm is clamped
    to [1e-20], the divisor is [1e-10] and not zero, and the result is
    the zero row, finite, which [nan_to_num_] leaves as it is.  On any
    row, an entry of the normalised row that is not finite is replaced by
    zero. *)
Theorem safe_normalize_zero_finite (float_max : R) :
  let zero := Ieee.of_vec3 (V3 0 0 0) in
  Ieee.clamped_sumsq zero = Ieee.Fin 1e-20
  /\ Ieee.divisor zero = Ieee.Fin 1e-10
  /\ 1e-10 <> 0
  /\ Ieee.safe_normalize zero = zero
  /\ Forall (fun e => Ieee.is_finite e = true /\ Ieee.is_nan e = false)
            (Ieee.entries (Ieee.safe_normalize zero))
  /\ Ieee.normalized float_max zero = zero
  /\ safe_normalize (V3 0 0 0) = V3 0 0 0
  /\ forall (x : Ieee.row) (e : Ieee.value),
       In e (Ieee.entries (Ieee.safe_normalize x)) ->
       Ieee.is_finite e = false ->
       Ieee.nan_to_num float_max e = Ieee.Fin 0.
Proof.
  intros zero.
  assert (Hc : Ieee.clamped_sumsq zero = Ieee.Fin 1e-20).
  { unfold Ieee.clamped_sumsq, zero; simpl. f_equal.
    apply Rmax_right. lra. }
  assert (Hd : Ieee.divisor zero = Ieee.Fin 1e-10).
  { unfold Ieee.divisor. rewrite Hc. unfold Ieee.sqrt.
    replace (Rltb 1e-20 0) with false by (symmetry; apply Rltb_false; lra).
    now rewrite sqrt_1e_20. }
  assert (Hr : safe_normalize (V3 0 0 0) = V3 0 0 0).
  { rewrite safe_normalize_clamped by (unfold sumsq, vsum; simpl; lra).
    vec3_lra. }
  assert (Hz : Ieee.safe_normalize zero = zero).
  { unfold zero. now rewrite safe_normalize_of_vec3, Hr. }
  repeat split; try assumption.
  - lra.
  - rewrite Hz. unfold zero. repeat constructor.
  - unfold Ieee.normalized. rewrite Hz. reflexivity.
  - intros x e Hin Hfin.
    destruct (safe_normalize_entry x e Hin) as [H | ->]; [congruence | reflexivity].
Qed.

Lemma safe_normalize_zero_finite_witness :
  In Ieee.NaN
     (Ieee.entries (Ieee.safe_normalize (Ieee.Row Ieee.PInf (Ieee.Fin 0) (Ieee.Fin 0))))
  /\ Ieee.nan_to_num 1 Ieee.NaN = Ieee.Fin 0.
Proof.
  assert (H : In Ieee.NaN
     (Ieee.entries (Ieee.safe_normalize (Ieee.Row Ieee.PInf (Ieee.Fin 0) (Ieee.Fin 0))))).
  { left. reflexivity. }
  split; [exact H |].
  exact (proj2 (proj2 (proj2 (proj2 (proj2 (proj2 (proj2
           (safe_normalize_zero_finite 1))))))) _ _ H eq_refl).
Defined.

(** * Further properties of the code *)

(** ** The two domain mappings *)







(** An entry of a row is at most the norm of the row in absolute value. *)
Lemma entry_within_norm (a : vec3) (m : R) :
  norm a <= m -> entries_within (- m) m a.
Proof.
  intros Hm. pose proof (norm_nonneg a) as Hn.
  destruct (entry_sq_le_norm_sq a) as (Hx & Hy & Hz).
  unfold entries_within. repeat split; nra.
Qed.

(** X2.  Within the unit ball of the rescaled coordinates the unbounded
    mapping is the bounded mapping squeezed into the inner half of the
    cube, [t / 2 + 0.25]: the result lies in [[0.25, 0.75]] on every
    axis. *)
Theorem contract_inside_ball (x : vec3) (aabb : box) (eps : R) :
  proper_box aabb ->
  norm (rescale x aabb) <= 1 ->
  contract_to_unisphere x aabb eps false
  = vmap (fun t => t / 2 + 0.25) (bounded_map x aabb)
  /\ entries_within 0.25 0.75 (contract_to_unisphere x aabb eps false).
Proof.
  intros _ Hm.
  assert (E : contract_to_unisphere x aabb eps false
              = vmap (fun t => t / 4 + 0.5) (rescale x aabb)).
  { unfold contract_to_unisphere.
    now rewrite (proj2 (Rgtb_false _ _) Hm). }
  split.
  - rewrite E. unfold bounded_map. vec3_lra.
  - rewrite E. destruct (entry_within_norm _ _ Hm) as (Hx & Hy & Hz).
    revert Hx Hy Hz. generalize (rescale x aabb). intros r Hx Hy Hz.
    unfold entries_within; simpl. lra.
Qed.

Lemma contract_inside_ball_witness :
  proper_box unit_box
  /\ contract_to_unisphere (V3 1 0 0) unit_box default_eps false
     = vmap (fun t => t / 2 + 0.25) (bounded_map (V3 1 0 0) unit_box).
Proof.
  assert (Hbox : proper_box unit_box) by (unfold proper_box; simpl; lra).
  assert (Hm : norm (rescale (V3 1 0 0) unit_box) <= 1).
  { rewrite rescale_unit_box, norm_axis_x; lra. }
  split; [exact Hbox |].
  exact (proj1 (contract_inside_ball (V3 1 0 0) unit_box default_eps Hbox Hm)).
Defined.



(** ** Scaled rows *)

Lemma sumsq_vscale (k : R) (a : vec3) : sumsq (vscale k a) = k * k * sumsq a.
Proof. unfold sumsq, vsum, vscale; simpl; ring. Qed.

Lemma norm_vscale (k : R) (a : vec3) : 0 <= k -> norm (vscale k a) = k * norm a.
Proof.
  intros Hk. unfold norm. rewrite sumsq_vscale.
  rewrite sqrt_mult by (try apply sumsq_nonneg; nra).
  now rewrite sqrt_square.
Qed.

(** ** The derivative mode *)





(** ** The density bias and the activations *)




Lemma trunc_exp_pos (t : R) : 0 < trunc_exp t.
Proof. apply exp_pos. Qed.

(** X8.  With the default [softplus(x - 1)] or with [trunc_exp] for
    activation, overflow of the activation included: a finite density
    is never negative, and it is positive only where the mapped
    position is strictly inside the unit cube; an infinite density is
    +inf and arises only inside; NaN arises only outside, where the
    activation has overflowed. *)
Theorem density_sign_cases
    (float_max : R) (self : NGPradianceField) (x : vec3) :
  0 <= float_max ->
  (forall t, density_activation self t = default_density_activation t)
  \/ (forall t, density_activation self t = trunc_exp t) ->
  match Overflow.density float_max self x with
  | Ieee.Fin d => 0 <= d /\ (0 < d -> inside_unit_cube (mapped self x))
  | Ieee.PInf => inside_unit_cube (mapped self x)
  | Ieee.NInf => False
  | Ieee.NaN =>
      ~ inside_unit_cube (mapped self x)
      /\ float_max < density_activation self (density_before_activation self x)
  end.
Proof.
  intros Hfm Hact.
  assert (Hpos : 0 < density_activation self (density_before_activation self x)).
  { destruct Hact as [H | H]; rewrite H;
      [apply softplus_pos | apply trunc_exp_pos]. }
  unfold Overflow.density, Overflow.overflow. cbn zeta.
  set (a := density_activation self (density_before_activation self x)) in *.
  destruct (selector (mapped self x)) eqn:Es.
  - apply selector_true in Es.
    destruct (Rgtb a float_max) eqn:Eg.
    + cbn [of_bool Ieee.mul]. unfold Ieee.scale_inf.
      destruct (Req_dec_T 1 0) as [E | _]; [lra |].
      rewrite (proj2 (Rgtb_true 1 0)) by lra. exact Es.
    + rewrite (proj2 (Rltb_false a (- float_max))) by lra.
      cbn [of_bool Ieee.mul]. split; [lra | intros _; exact Es].
  - apply selector_false in Es.
    destruct (Rgtb a float_max) eqn:Eg.
    + apply Rgtb_true in Eg. cbn [of_bool Ieee.mul]. unfold Ieee.scale_inf.
      destruct (Req_dec_T 0 0) as [_ | E]; [|contradiction].
      split; assumption.
    + rewrite (proj2 (Rltb_false a (- float_max))) by lra.
      cbn [of_bool Ieee.mul]. split; [lra | intros H; lra].
Qed.

Lemma density_sign_cases_witness :
  ~ inside_unit_cube (mapped overflow_field (V3 2 0 0))
  /\ Overflow.float32_max
     < density_activation overflow_field
         (density_before_activation overflow_field (V3 2 0 0)).
Proof.
  assert (Hfm : 0 <= Overflow.float32_max)
    by (pose proof float32_max_large; lra).
  pose proof (density_sign_cases Overflow.float32_max overflow_field (V3 2 0 0)
                Hfm (or_intror (fun t => eq_refl))) as H.
  rewrite overflow_field_density in H.
  exact H.
Defined.

(** X9.  The backward pass of [_TruncExp] on the context its forward
    pass saved: up to [x = 15] it is the incoming gradient times the
    derivative of the forward pass, which is the forward value; from 15
    on it is the gradient times [exp 15]; in absolute value it never
    exceeds either. *)
Theorem TruncExp_backward_clamped (x g : R) :
  let ctx := fst (TruncExp_forward x) in
  let y := snd (TruncExp_forward x) in
  derivable_pt_lim trunc_exp x y
  /\ (x <= 15 -> TruncExp_backward ctx g = g * y)
  /\ (15 <= x -> TruncExp_backward ctx g = g * exp 15)
  /\ Rabs (TruncExp_backward ctx g) <= Rabs g * y
  /\ Rabs (TruncExp_backward ctx g) <= Rabs g * exp 15.
Proof.
  intros ctx y. subst ctx y. unfold TruncExp_backward; simpl.
  assert (Hmono : forall a b, a <= b -> exp a <= exp b).
  { intros a b [H | ->]; [left; now apply exp_increasing | right; reflexivity]. }
  split; [exact (derivable_pt_lim_exp x) |].
  split; [intros H; now rewrite Rmin_left |].
  split; [intros H; now rewrite Rmin_right |].
  pose proof (exp_pos (Rmin x 15)) as Hp.
  rewrite Rabs_mult, (Rabs_pos_eq (exp _)) by lra.
  split; apply Rmult_le_compat_l; try apply Rabs_pos; apply Hmono.
  - apply Rmin_l.
  - apply Rmin_r.
Qed.

Lemma TruncExp_backward_clamped_witness :
  TruncExp_backward (fst (TruncExp_forward 20)) 1 = 1 * exp 15.
Proof.
  apply (proj1 (proj2 (proj2 (TruncExp_backward_clamped 20 1)))).
  lra.
Defined.

(** ** Normalised normals and the Lambertian term *)



(** The divisor of [safe_normalize]. *)
Lemma safe_normalize_vscale (r : vec3) :
  safe_normalize r = vscale (/ sqrt (Rmax (sumsq r) 1e-20)) r.
Proof.
  unfold safe_normalize, clamp_min. rewrite sumsq_mul.
  apply vec3_eq; unfold vdivs, vscale; simpl; unfold Rdiv; ring.
Qed.

Lemma norm_safe_normalize (r : vec3) :
  norm (safe_normalize r) = norm r / sqrt (Rmax (sumsq r) 1e-20).
Proof.
  pose proof (clamped_positive (sumsq r)) as Hd.
  rewrite safe_normalize_vscale, norm_vscale.
  - unfold Rdiv. ring.
  - apply Rlt_le, Rinv_0_lt_compat, Hd.
Qed.

Lemma norm_le_divisor (r : vec3) :
  norm r <= sqrt (Rmax (sumsq r) 1e-20)
  /\ (norm r = sqrt (Rmax (sumsq r) 1e-20) <-> 1e-20 <= sumsq r).
Proof.
  pose proof (sumsq_nonneg r) as Hs.
  split.
  - unfold norm. apply sqrt_le_1_alt, Rmax_l.
  - split.
    + intros E. unfold norm in E. apply sqrt_inj in E;
        [pose proof (Rmax_r (sumsq r) 1e-20); lra | exact Hs |].
      pose proof (Rmax_l (sumsq r) 1e-20). lra.
    + intros H. unfold norm. now rewrite Rmax_left.
Qed.

Lemma norm_safe_normalize_le (r : vec3) : norm (safe_normalize r) <= 1.
Proof.
  pose proof (clamped_positive (sumsq r)) as Hd.
  destruct (norm_le_divisor r) as (Hle & _).
  rewrite norm_safe_normalize.
  apply Rmult_le_reg_r with (sqrt (Rmax (sumsq r) 1e-20)); [exact Hd |].
  unfold Rdiv. rewrite Rmult_assoc, Rinv_l by lra. lra.
Qed.

(** X10.  [safe_normalize] never returns a row longer than 1.  Below
    the clamp, for a squared norm of at most [1e-20], it divides by the
    constant [1e-10]; from the clamp up to a squared norm of [1e30],
    inside the range of binary32, the result has length 1 and is a
    positive multiple of the row. *)
Theorem safe_normalize_length (r : vec3) :
  norm (safe_normalize r) <= 1
  /\ (sumsq r <= 1e-20 -> safe_normalize r = vdivs r 1e-10)
  /\ (1e-20 <= sumsq r <= 1e30 ->
      norm (safe_normalize r) = 1 /\ same_direction r (safe_normalize r)).
Proof.
  split; [apply norm_safe_normalize_le |].
  split; [apply safe_normalize_clamped |].
  intros (Hlo & _).
  split; [apply (safe_normalize_unit r Hlo) |].
  exists (/ sqrt (Rmax (sumsq r) 1e-20)). split.
  - apply Rinv_0_lt_compat, clamped_positive.
  - apply safe_normalize_vscale.
Qed.

Lemma safe_normalize_length_witness :
  1e-20 <= sumsq (V3 0.6 0.8 0) <= 1e30
  /\ norm (safe_normalize (V3 0.6 0.8 0)) = 1.
Proof.
  assert (H : 1e-20 <= sumsq (V3 0.6 0.8 0) <= 1e30)
    by (unfold sumsq, vsum; simpl; lra).
  split; [exact H |].
  exact (proj1 (proj2 (proj2 (safe_normalize_length (V3 0.6 0.8 0))) H)).
Defined.




(** *** Normalisation with overflow *)













(** ** The embedding *)

Lemma cat_rows_mismatch (d e : list (list R)) :
  List.length d <> List.length e -> cat_rows d e = Raise RuntimeError.
Proof.
  revert e. induction d as [|r d IH]; intros [|s e] H; simpl in *;
    try reflexivity; try contradiction.
  rewrite IH; [reflexivity | intros E; apply H; now f_equal].
Qed.

Lemma cat_rows_nth (d e t : list (list R)) (i : nat) (r s : list R) :
  cat_rows d e = Ok t ->
  nth_error d i = Some r -> nth_error e i = Some s ->
  nth_error t i = Some (r ++ s).
Proof.
  revert e t i. induction d as [|r0 d IH]; intros [|s0 e] t i H Hr Hs;
    simpl in H; try discriminate H.
  - destruct i; discriminate Hr.
  - destruct (cat_rows d e) as [u|] eqn:E; simpl in H; [|discriminate H].
    inversion H; subst. destruct i as [|i]; simpl in *.
    + now inversion Hr; inversion Hs; subst.
    + eapply IH; eauto.
Qed.

Lemma cat_rows_same_length (d e t : list (list R)) :
  cat_rows d e = Ok t -> List.length d = List.length e.
Proof.
  intros H. destruct (Nat.eq_dec (List.length d) (List.length e)) as [E | E];
    [exact E |].
  rewrite (cat_rows_mismatch _ _ E) in H. discriminate H.
Qed.

(** X13.  The outcomes of [_compute_embedding] on a feature whose rows
    have the width [1 + geo_feat_dim], so that its [view] leaves it as
    it is.  Without view directions the embedding comes back unchanged
    and the directions are not looked at.  With them, missing
    directions raise [TypeError], a batch of another size raises
    [RuntimeError], and otherwise row [i] of the result is the encoding
    of the remapped direction [i] followed by row [i] of the
    embedding. *)
Theorem compute_embedding_outcome
    (self : NGPmodule) (dir : option (list vec3))
    (embedding : list (list R)) :
  Forall (fun row => List.length row = (1 + geo_feat_dim self)%nat) embedding ->
  match _compute_embedding self dir embedding with
  | Ok out =>
      List.length out = List.length embedding
      /\ (use_viewdirs self = false -> out = embedding)
      /\ (use_viewdirs self = true ->
          exists dirs,
            dir = Some dirs
            /\ List.length dirs = List.length embedding
            /\ forall i d e,
                 nth_error dirs i = Some d -> nth_error embedding i = Some e ->
                 nth_error out i
                 = Some (direction_encoding self (to_unit_range d) ++ e))
  | Raise err =>
      use_viewdirs self = true
      /\ ((dir = None /\ err = TypeError)
          \/ (exists dirs,
                dir = Some dirs
                /\ List.length dirs <> List.length embedding
                /\ err = RuntimeError))
  end.
Proof.
  intros _.
  destruct (_compute_embedding self dir embedding) as [out | err] eqn:E.
  - split; [eapply _compute_embedding_length; eassumption |].
    unfold _compute_embedding in E.
    destruct (use_viewdirs self); split; intros Hv; try discriminate Hv.
    + destruct dir as [dirs |]; [|discriminate E].
      exists dirs. split; [reflexivity |].
      pose proof (cat_rows_same_length _ _ _ E) as Hlen.
      rewrite !length_map in Hlen. split; [exact Hlen |].
      intros i d e Hd He.
      apply (cat_rows_nth _ _ _ i _ _ E); [|exact He].
      rewrite map_map.
      exact (map_nth_error
               (fun x => direction_encoding self (to_unit_range x)) _ _ Hd).
    + now inversion E.
  - unfold _compute_embedding in E.
    destruct (use_viewdirs self); [|discriminate E].
    split; [reflexivity |].
    destruct dir as [dirs |].
    + right. exists dirs. split; [reflexivity |].
      destruct (Nat.eq_dec (List.length dirs) (List.length embedding)) as [L | L].
      * destruct (cat_rows_ok
                    (map (direction_encoding self)
                       (map (vmap (fun t => (t + 1.0) / 2.0)) dirs))
                    embedding) as (t & Ht);
          [now rewrite !length_map | rewrite Ht in E; discriminate E].
      * split; [exact L |].
        rewrite cat_rows_mismatch in E by now rewrite !length_map.
        now inversion E.
    + left. split; [reflexivity | now inversion E].
Qed.

Lemma compute_embedding_outcome_witness :
  Forall (fun row => List.length row = (1 + geo_feat_dim sample_module)%nat)
         [[0.25; 0.5; 0.75]]
  /\ _compute_embedding sample_module None [[0.25; 0.5; 0.75]]
     = Raise TypeError.
Proof.
  assert (H : Forall (fun row => List.length row
                                 = (1 + geo_feat_dim sample_module)%nat)
                     [[0.25; 0.5; 0.75]]) by (repeat constructor).
  split; [exact H |].
  pose proof (compute_embedding_outcome sample_module None
                [[0.25; 0.5; 0.75]] H) as O.
  destruct (_compute_embedding sample_module None [[0.25; 0.5; 0.75]])
    as [out | err].
  - destruct O as (_ & _ & O). destruct (O eq_refl) as (dirs & E & _).
    discriminate E.
  - destruct O as (_ & [(_ & ->) | (dirs & E & _)]);
      [reflexivity | discriminate E].
Defined.

(** The remapping [(dir + 1) / 2] of [_compute_embedding] and
    [query_bkgd] sends exactly the directions with entries in [[-1, 1]]
    to rows with entries in [[0, 1]], the range of the encoder. *)
Lemma to_unit_range_iff (dir : vec3) :
  entries_within 0 1 (to_unit_range dir) <-> entries_within (-1) 1 dir.
Proof.
  unfold entries_within, to_unit_range; simpl. split; intros; lra.
Qed.

(** X14.  The width of the embedding is the input width that the
    constructor declares for [mlp_rgb] and [mlp_normal]: when the
    direction encoder has [dir_dims] outputs and the rows of the feature
    have width [1 + geo_feat_dim], every row that [_compute_embedding]
    returns has width
    [(dir_dims if use_viewdirs else 0) + 1 + geo_feat_dim]. *)
Theorem embedding_width
    (self : NGPmodule) (dir_dims : nat) (dir : option (list vec3))
    (embedding out : list (list R)) :
  (forall d, List.length (direction_encoding self d) = dir_dims) ->
  Forall (fun row => List.length row = (1 + geo_feat_dim self)%nat) embedding ->
  _compute_embedding self dir embedding = Ok out ->
  Forall (fun row => List.length row = mlp_rgb_n_input_dims self dir_dims) out.
Proof.
  intros Hd He Hout. unfold mlp_rgb_n_input_dims.
  unfold _compute_embedding in Hout.
  destruct (use_viewdirs self).
  - destruct dir as [dirs |]; [|discriminate Hout].
    remember (map (vmap (fun t => (t + 1.0) / 2.0)) dirs) as ds eqn:Eds.
    clear Eds. revert embedding out He Hout.
    induction ds as [|d ds IH]; intros [|e es] out He Hout; simpl in Hout;
      try discriminate Hout.
    + inversion Hout. constructor.
    + destruct (cat_rows (map (direction_encoding self) ds) es) as [t|] eqn:E;
        simpl in Hout; [|discriminate Hout].
      inversion Hout; subst. inversion He; subst. constructor.
      * rewrite length_app, Hd. lia.
      * eapply IH; eauto.
  - inversion Hout; subst. simpl. exact He.
Qed.

Lemma embedding_width_witness :
  exists out,
    _compute_embedding sample_module (Some [V3 (-1) 0 1]) [[0.25; 0.5; 0.75]]
    = Ok out
    /\ Forall (fun row => List.length row = mlp_rgb_n_input_dims sample_module 3)
              out.
Proof.
  eexists. split; [reflexivity |].
  apply (embedding_width sample_module 3 (Some [V3 (-1) 0 1])
           [[0.25; 0.5; 0.75]]).
  - intros d. reflexivity.
  - repeat constructor.
  - reflexivity.
Defined.

(** ** The outcomes of forward *)













(** ** The finite-difference estimator at and beyond its bound *)











(** ** The constructor, the background head and get_params *)

(** X19.  What the constructor's assertion buys.  [__init__] fails, with
    [AssertionError], exactly when a background head is asked for
    without view directions.  On a module it returns, [query_bkgd]
    returns one colour per direction whenever the background head is
    enabled, and raises [AttributeError] whenever it is not. *)
Theorem init_guards_query_bkgd
    (aabb : box) (use_viewdirs : bool) (density_activation : R -> R)
    (unbounded : bool) (geo_feat_dim : nat) (use_predict_normal : bool)
    (density_bias_scale offset_scale : R) (use_predict_bkgd : bool)
    (nets : tcnn_networks) :
  match init aabb use_viewdirs density_activation unbounded geo_feat_dim
          use_predict_normal density_bias_scale offset_scale use_predict_bkgd
          nets with
  | inl err =>
      err = AssertionError /\ use_predict_bkgd = true /\ use_viewdirs = false
  | inr self =>
      (use_predict_bkgd = true -> use_viewdirs = true)
      /\ forall dir : list vec3,
           query_bkgd self dir
           = if use_predict_bkgd then
               Ok (map (fun d => tcnn_mlp_bkgd nets
                                   (tcnn_direction_encoding nets (to_unit_range d)))
                       dir)
             else Raise AttributeError
  end.
Proof.
  unfold init.
  destruct use_predict_bkgd, use_viewdirs; cbn [query_bkgd];
    repeat split; try easy; intros dir; unfold query_bkgd; simpl;
    now rewrite ?map_map.
Qed.

(** X20.  The parameter groups of [get_params]: the encoder, the density
    head and the colour head come first, the normal head and the
    background head follow exactly when they are enabled, no network is
    listed twice, and every group has the learning rate [lr] but the
    background head, which has [lr / 10]. *)
Theorem get_params_groups (self : NGPmodule) (lr : R) :
  let groups := get_params self lr in
  List.length groups
  = (3 + count_flag (use_predict_normal self)
     + count_flag (use_predict_bkgd self))%nat
  /\ firstn 3 (map params groups) = [Mlp_encoder; Mlp_sigma; Mlp_rgb]
  /\ NoDup (map params groups)
  /\ (In Mlp_normal (map params groups) <-> use_predict_normal self = true)
  /\ (In Mlp_bkgd (map params groups) <-> use_predict_bkgd self = true)
  /\ forall g, In g groups ->
       lr_of g = match params g with Mlp_bkgd => lr / 10 | _ => lr end.
Proof.
  unfold get_params.
  destruct (use_predict_normal self), (use_predict_bkgd self);
    cbn [app map firstn List.length count_flag Nat.add params];
    (split; [reflexivity |]); (split; [reflexivity |]);
    (split; [repeat constructor; cbn [In]; intuition discriminate |]);
    (split; [cbn [In]; intuition discriminate |]);
    (split; [cbn [In]; intuition discriminate |]);
    intros g Hg; cbn [In] in Hg;
    repeat (destruct Hg as [<- | Hg]; [reflexivity |]); contradiction.
Qed.
